(** * wasmphobia: the drop/select front-end ([src/web/main.jsx])

    A shallow embedding of the page script that lets a user drop or pick a
    WebAssembly binary and navigates to the rendered flame graph.

    - the drag payload ([DataTransfer]) and [isValidWasmDrop];
    - the class list of the drop-signal element and the three functions
      that decorate it;
    - the event handlers installed on the drop zone and on the file
      picker;
    - the asynchronous function [process].

    Host objects (the DOM token list, the blob URL store, the location
    bar) are modelled as fields of a [World] record that the handlers
    thread through a state-and-exception monad.  The two modules the
    script imports, [framegraph.js] and [styles.module.css], are
    parameters of the development. *)

From Stdlib Require Import Strings.Byte.
From stdpp Require Import base option list strings gmap fin_maps.

Open Scope string_scope.
Open Scope list_scope.

(** ** JavaScript values the script manipulates *)

(** Exceptions and promise rejections. *)
Inductive exn : Type :=
  | TypeError (msg : string)
  | Rejection (reason : string).

(** How a synchronous evaluation ends, or how a promise settles. *)
Inductive outcome (A : Type) : Type :=
  | Normal (a : A)
  | Throw (e : exn).
Arguments Normal {A} a.
Arguments Throw {A} e.

(** A [File]: a name, a MIME type and the bytes it holds. *)
Record File : Type := mkFile {
  fileName : string;
  fileType : string;
  fileBytes : list byte;
}.

(** A [DataTransferItem].  [kind] is ["string"] or ["file"]; [type] is
    the declared MIME type; [itemData] stands for the data behind the
    item, which the script never looks at. *)
Record DataTransferItem : Type := mkItem {
  kind : string;
  type : string;
  itemData : list byte;
}.

(** The [DataTransfer] of a drag event: its item list and its file
    list. *)
Record DataTransfer : Type := mkDataTransfer {
  items : list DataTransferItem;
  files : list File;
}.

(** ** Evaluation of an expression that only reads its argument

    [Js A] is the result of evaluating such an expression: the outcome
    and the indices of [dt.items] that were read on the way, in order.
    An index read out of range yields [undefined] ([None]), as in
    JavaScript; reading a property of [undefined] throws. *)
Record Js (A : Type) : Type := mkJs {
  reads : list nat;
  result : outcome A;
}.
Arguments mkJs {A} reads result.
Arguments reads {A} j.
Arguments result {A} j.

Definition js_throw {A} (e : exn) : Js A := mkJs [] (Throw e).

#[global] Instance js_ret : MRet Js := λ A a, mkJs [] (Normal a).

#[global] Instance js_bind : MBind Js := λ A B k m,
  match result m with
  | Normal a => mkJs (reads m ++ reads (k a)) (result (k a))
  | Throw e => mkJs (reads m) (Throw e)
  end.

(** [dt.items[i]] *)
Definition item_at (dt : DataTransfer) (i : nat) : Js (option DataTransferItem) :=
  mkJs [i] (Normal (items dt !! i)).

(** [item.kind] and [item.type], where [item] may be [undefined]. *)
Definition get_kind (item : option DataTransferItem) : Js string :=
  match item with
  | Some it => mret (kind it)
  | None => js_throw (TypeError "Cannot read properties of undefined (reading 'kind')")
  end.

Definition get_type (item : option DataTransferItem) : Js string :=
  match item with
  | Some it => mret (type it)
  | None => js_throw (TypeError "Cannot read properties of undefined (reading 'type')")
  end.

(** [function isValidWasmDrop(dt)].  The result is the item, or [null]
    ([None]). *)
Definition isValidWasmDrop (dt : DataTransfer) : Js (option DataTransferItem) :=
  if negb (Nat.eqb (length (items dt)) 1) then mret None else
  item ← item_at dt 0;
  k ← get_kind item;
  if negb (String.eqb k "file") then mret None else
  t ← get_type item;
  if negb (String.eqb t "application/wasm") then mret None else
  mret item.

(** What the predicate can see of a payload: for each item, its kind
    and its declared type. *)
Definition metadata (dt : DataTransfer) : list (string * string) :=
  (λ it, (kind it, type it)) <$> items dt.

(** A value used as a condition: [null] is falsy, an object is truthy. *)
Definition truthy {A} (v : option A) : bool :=
  match v with
  | Some _ => true
  | None => false
  end.

(** ** The page *)

(** The class names [styles.module.css] exports.  The stylesheet is
    resolved when the page is built; the script only uses these four
    names. *)
Record Styles : Type := mkStyles {
  dropSignal : string;
  dropValid : string;
  dropInvalid : string;
  fileSelect : string;
}.

(** Where the location bar points: the page itself, or an object URL. *)
Inductive Location : Type :=
  | PageURL
  | BlobURL (id : nat).

(** Calls into the host made by [process], in the order they happen. *)
Inductive HostCall : Type :=
  | ReadBody (file : option File) (buf : list byte)
  | Render (buf : list byte)
  | NewFile (f : File)
  | CreateObjectURL (f : File) (id : nat)
  | RevokeObjectURL (id : nat)
  | Navigate (to : Location).

(** The one host call that releases an object URL. *)
Definition is_revoke (c : HostCall) : bool :=
  match c with
  | RevokeObjectURL _ => true
  | _ => false
  end.

(** The state the script can read or change.
    - [classList]: the class list of the drop-signal element, a DOM
      token list (ordered, without repeats);
    - [defaultPrevented]: the flag of the event being dispatched;
    - [pending]: the calls of [process] made so far whose promise has
      not settled, oldest first;
    - [blobs]: the live object URLs and the file behind each;
    - [href]: the location bar;
    - [trace]: the host calls made by [process];
    - [uncaught]: exceptions that left a handler and rejections nobody
      handles. *)
Record World : Type := mkWorld {
  classList : list string;
  defaultPrevented : bool;
  pending : list (option File);
  blobs : gmap nat File;
  href : Location;
  trace : list HostCall;
  uncaught : list exn;
}.

Definition set_classList (cl : list string) (w : World) : World :=
  mkWorld cl (defaultPrevented w) (pending w) (blobs w) (href w) (trace w) (uncaught w).
Definition set_defaultPrevented (b : bool) (w : World) : World :=
  mkWorld (classList w) b (pending w) (blobs w) (href w) (trace w) (uncaught w).
Definition set_pending (p : list (option File)) (w : World) : World :=
  mkWorld (classList w) (defaultPrevented w) p (blobs w) (href w) (trace w) (uncaught w).
Definition set_blobs (b : gmap nat File) (w : World) : World :=
  mkWorld (classList w) (defaultPrevented w) (pending w) b (href w) (trace w) (uncaught w).
Definition set_href (l : Location) (w : World) : World :=
  mkWorld (classList w) (defaultPrevented w) (pending w) (blobs w) l (trace w) (uncaught w).
Definition set_trace (t : list HostCall) (w : World) : World :=
  mkWorld (classList w) (defaultPrevented w) (pending w) (blobs w) (href w) t (uncaught w).
Definition set_uncaught (u : list exn) (w : World) : World :=
  mkWorld (classList w) (defaultPrevented w) (pending w) (blobs w) (href w) (trace w) u.

(** ** The monad of handlers: state and exceptions *)
Record M (A : Type) : Type := mkM { runM : World → outcome A * World }.
Arguments mkM {A} runM.
Arguments runM {A} m w.

#[global] Instance M_ret : MRet M := λ A a, mkM (λ w, (Normal a, w)).

#[global] Instance M_bind : MBind M := λ A B k m,
  mkM (λ w,
    match runM m w with
    | (Normal a, w') => runM (k a) w'
    | (Throw e, w') => (Throw e, w')
    end).

Definition modify (f : World → World) : M unit := mkM (λ w, (Normal (), f w)).

Definition get {A} (f : World → A) : M A := mkM (λ w, (Normal (f w), w)).

Definition throw {A} (e : exn) : M A := mkM (λ w, (Throw e, w)).

(** A read-only evaluation inside a handler: the world stays as it is. *)
Definition eval {A} (j : Js A) : M A := mkM (λ w, (result j, w)).

(** The world a computation leaves, and the way it ends. *)
Definition exec {A} (m : M A) (w : World) : World := (runM m w).2.
Definition ends {A} (m : M A) (w : World) : outcome A := (runM m w).1.

(** *** Host operations *)

(** [classList.add(tok)]: appended unless already there. *)
Definition token_add (tok : string) (cl : list string) : list string :=
  if bool_decide (tok ∈ cl) then cl else cl ++ [tok].

(** [classList.remove(tok1, tok2, ...)]. *)
Definition token_remove (toks : list string) (cl : list string) : list string :=
  filter (λ c, c ∉ toks) cl.

Definition classList_add (tok : string) : M unit :=
  modify (λ w, set_classList (token_add tok (classList w)) w).

Definition classList_remove (toks : list string) : M unit :=
  modify (λ w, set_classList (token_remove toks (classList w)) w).

(** [ev.preventDefault()] *)
Definition preventDefault : M unit := modify (set_defaultPrevented true).

Definition host (c : HostCall) : M unit :=
  modify (λ w, set_trace (trace w ++ [c]) w).

(** [new Response(file).arrayBuffer()], awaited: all the bytes of the
    file; the body of [new Response(undefined)] is empty. *)
Definition body (file : option File) : list byte :=
  match file with
  | Some f => fileBytes f
  | None => []
  end.

Definition arrayBuffer (file : option File) : M (list byte) :=
  host (ReadBody file (body file));; mret (body file).

(** [URL.createObjectURL(f)]: a URL that is not live yet now stands for
    [f]. *)
Definition createObjectURL (f : File) : M Location :=
  id ← get (λ w, fresh (dom (blobs w)));
  modify (λ w, set_blobs (<[id := f]> (blobs w)) w);;
  host (CreateObjectURL f id);;
  mret (BlobURL id).

(** [location.href = url] *)
Definition assign_href (url : Location) : M unit :=
  modify (set_href url);; host (Navigate url).

(** A call of an [async] function whose promise is dropped: the call is
    queued, the caller goes on. *)
Definition call_process (file : option File) : M unit :=
  modify (λ w, set_pending (pending w ++ [file]) w).

(** ** The script *)

Section Page.

(** [import * as styles from "./styles.module.css"] *)
Variable styles : Styles.

(** [import renderFlameGraph from "./framegraph.js"]: how the promise
    it returns for a buffer settles, with the SVG payload or with a
    rejection. *)
Variable renderFlameGraph : list byte → outcome (list byte).

(** [await renderFlameGraph(buf)] *)
Definition await_renderFlameGraph (buf : list byte) : M (list byte) :=
  host (Render buf);;
  match renderFlameGraph buf with
  | Normal svg => mret svg
  | Throw e => throw e
  end.

(** The renderer resolves on the body of this file. *)
Definition renders (file : option File) : Prop :=
  ∃ svg, renderFlameGraph (body file) = Normal svg.

(** [new File([svg], "flamegraph.svg", { type: "image/svg+xml" })] *)
Definition svgFile_of (svg : list byte) : File :=
  mkFile "flamegraph.svg" "image/svg+xml" svg.

(** [async function process(file)], run from its call to the moment
    its promise settles. *)
Definition process (file : option File) : M unit :=
  buf ← arrayBuffer file;
  svg ← await_renderFlameGraph buf;
  let svgFile := svgFile_of svg in
  host (NewFile svgFile);;
  url ← createObjectURL svgFile;
  assign_href url.

Definition signalDropValid : M unit :=
  classList_add (dropValid styles).

Definition signalDropInvalid : M unit :=
  classList_add (dropInvalid styles).

Definition resetDropSignal : M unit :=
  classList_remove [dropValid styles; dropInvalid styles].

(** [f.onchange = () => process(f.files[0])], for the input element
    that [fileSelect.onclick] creates and clicks; [fs] is [f.files]. *)
Definition onchange (fs : list File) : M unit :=
  call_process (fs !! 0).

Definition ondragleave : M unit := resetDropSignal.

Definition ondragover (dt : DataTransfer) : M unit :=
  preventDefault;;
  v ← eval (isValidWasmDrop dt);
  if negb (truthy v) then signalDropInvalid
  else signalDropValid.

Definition ondrop (dt : DataTransfer) : M unit :=
  preventDefault;;
  resetDropSignal;;
  v ← eval (isValidWasmDrop dt);
  if negb (truthy v) then mret ()
  else
    let file := files dt !! 0 in
    call_process file.

(** *** The event loop *)

(** What the loop can pick up next: an event of the drop zone, the
    change event of the file picker, or the completion of the oldest
    pending call of [process]. *)
Inductive Input : Type :=
  | DragOver (dt : DataTransfer)
  | DragLeave
  | Drop (dt : DataTransfer)
  | Change (fs : list File)
  | Settle.

(** An exception that leaves a job is reported and the loop goes on. *)
Definition report {A} (r : outcome A * World) : World :=
  match r with
  | (Normal _, w) => w
  | (Throw e, w) => set_uncaught (uncaught w ++ [e]) w
  end.

(** Dispatching an event: the handler runs to completion on a fresh
    event object. *)
Definition dispatch (h : M unit) (w : World) : World :=
  report (runM h (set_defaultPrevented false w)).

Definition step (i : Input) (w : World) : World :=
  match i with
  | DragOver dt => dispatch (ondragover dt) w
  | DragLeave => dispatch ondragleave w
  | Drop dt => dispatch (ondrop dt) w
  | Change fs => dispatch (onchange fs) w
  | Settle =>
      match pending w with
      | [] => w
      | file :: rest => report (runM (process file) (set_pending rest w))
      end
  end.

Definition run (inputs : list Input) (w : World) : World :=
  foldl (λ w i, step i w) w inputs.

(** *** The drop-signal decoration *)

Inductive DropState : Type := Neutral | Valid | Invalid.

(** The decoration a class list shows, if it shows one: neither
    marker, the valid marker alone, or the invalid marker alone. *)
Definition decoration (cl : list string) : option DropState :=
  match bool_decide (dropValid styles ∈ cl), bool_decide (dropInvalid styles ∈ cl) with
  | false, false => Some Neutral
  | true, false => Some Valid
  | false, true => Some Invalid
  | true, true => None
  end.

Definition DropState_of (w : World) : option DropState :=
  decoration (classList w).

(** Whether a handler takes the payload as valid. *)
Definition accepted (dt : DataTransfer) : bool :=
  match result (isValidWasmDrop dt) with
  | Normal v => truthy v
  | Throw _ => false
  end.

(** The decoration a drag-over event asks for. *)
Definition verdict (dt : DataTransfer) : DropState :=
  if accepted dt then Valid else Invalid.

(** The world [resetDropSignal] leaves after [preventDefault]. *)
Definition after_reset (w : World) : World :=
  set_classList
    (token_remove [dropValid styles; dropInvalid styles] (classList w))
    (set_defaultPrevented true w).

(** *** The state machine of the decoration

    What the decoration should be after an input, given what it was:
    a drag-over shows its verdict, a drag-leave or a drop goes back to
    Neutral, anything else leaves it alone. *)
Definition next (s : DropState) (i : Input) : DropState :=
  match i with
  | DragOver dt => verdict dt
  | DragLeave | Drop _ => Neutral
  | Change _ | Settle => s
  end.

Definition track (s : DropState) (inputs : list Input) : DropState :=
  foldl next s inputs.

Definition DropState_eqb (a b : DropState) : bool :=
  match a, b with
  | Neutral, Neutral | Valid, Valid | Invalid, Invalid => true
  | _, _ => false
  end.

(** A sequence of inputs in which a drag-over never contradicts the
    decoration already shown: every drag-over finds the decoration
    Neutral or equal to its own verdict.  This is what a browser
    delivers, since the payload of a drag does not change between the
    moment it enters the page and the moment it leaves or drops. *)
Fixpoint steady (s : DropState) (inputs : list Input) : bool :=
  match inputs with
  | [] => true
  | i :: rest =>
      match i with
      | DragOver dt => DropState_eqb s Neutral || DropState_eqb s (verdict dt)
      | _ => true
      end && steady (next s i) rest
  end.

End Page.

(** The shape the predicate accepts. *)
Definition single_wasm_file (dt : DataTransfer) (it : DataTransferItem) : Prop :=
  items dt = [it] ∧ kind it = "file" ∧ type it = "application/wasm".

(** What a caller can tell about a result without looking at the data
    behind the item. *)
Definition seen (r : outcome (option DataTransferItem)) : outcome (option (string * string)) :=
  match r with
  | Normal v => Normal ((λ it, (kind it, type it)) <$> v)
  | Throw e => Throw e
  end.

(** ** Vocabulary for the behaviour of the page as a whole *)

(** The calls of [process] the handler of an input makes, with their
    argument: one for a drop that is accepted, one for every change
    event of the file picker, none otherwise. *)
Definition calls_made (i : Input) : list (option File) :=
  match i with
  | Drop dt => if accepted dt then [head (files dt)] else []
  | Change fs => [head fs]
  | DragOver _ | DragLeave | Settle => []
  end.

(** The inputs that are events, handled by a handler of the script. *)
Definition is_event (i : Input) : bool :=
  match i with
  | Settle => false
  | _ => true
  end.

(** The location bar, when it shows an object URL, shows a live one
    that stands for a file [flamegraph.svg] of type [image/svg+xml]. *)
Definition shows_live_svg (w : World) : Prop :=
  ∀ id, href w = BlobURL id →
    ∃ f, blobs w !! id = Some f
         ∧ fileName f = "flamegraph.svg" ∧ fileType f = "image/svg+xml".

(** A file that [process] can have built: the wrapped payload of a
    render that resolved. *)
Definition rendered_svg (renderFlameGraph : list byte → outcome (list byte))
    (f : File) : Prop :=
  ∃ buf svg, renderFlameGraph buf = Normal svg ∧ f = svgFile_of svg.

(** ** Sample inputs *)

Definition css : Styles :=
  mkStyles "drop-signal" "drop-valid" "drop-invalid" "file-select".

Definition wasmItem : DataTransferItem := mkItem "file" "application/wasm" [].
Definition textItem : DataTransferItem := mkItem "file" "text/plain" [].
Definition wasmFile : File := mkFile "a.wasm" "application/wasm" ["000"%byte; "a"%byte; "s"%byte; "m"%byte].

Definition oneWasm : DataTransfer := mkDataTransfer [wasmItem] [wasmFile].
Definition oneText : DataTransfer := mkDataTransfer [textItem] [mkFile "a.txt" "text/plain" []].
Definition twoWasm : DataTransfer := mkDataTransfer [wasmItem; wasmItem] [wasmFile; wasmFile].
Definition nothing : DataTransfer := mkDataTransfer [] [].

(** A drag that is accepted, leaves, and one that is refused and dropped. *)
Definition sampleDrag : list Input :=
  [DragOver oneWasm; DragOver oneWasm; DragLeave; DragOver oneText; Drop oneText].

(** A drop that declares [application/wasm] but carries text, and a
    picked text file. *)
Definition notesFile : File := mkFile "notes.txt" "text/plain" ["h"%byte; "i"%byte].
Definition mislabelled : DataTransfer := mkDataTransfer [wasmItem] [notesFile].

(** A page that has just loaded. *)
Definition freshPage : World :=
  mkWorld ["drop-signal"] false [] ∅ PageURL [] [].

(** Two renderers: one that always resolves, one that rejects every
    buffer that does not start with the WebAssembly magic byte. *)
Definition renderAll (buf : list byte) : outcome (list byte) :=
  Normal ("<"%byte :: "s"%byte :: "v"%byte :: "g"%byte :: ">"%byte :: buf).

Definition renderStrict (buf : list byte) : outcome (list byte) :=
  match buf with
  | "000"%byte :: _ => Normal ["<"%byte; "s"%byte; "v"%byte; "g"%byte; ">"%byte]
  | _ => Throw (Rejection "not a wasm module")
  end.

(** * Properties *)

(** ** The validation predicate *)

Lemma isValidWasmDrop_unfold (dt : DataTransfer) :
  isValidWasmDrop dt =
    match items dt with
    | [it] =>
        mkJs [0]
          (Normal (if String.eqb (kind it) "file" && String.eqb (type it) "application/wasm"
                   then Some it else None))
    | _ => mkJs [] (Normal None)
    end.
Proof.
  unfold isValidWasmDrop.
  destruct (items dt) as [|it [|it' rest]] eqn:Hitems; try reflexivity.
  cbn [length Nat.eqb negb].
  unfold mbind, js_bind, item_at, get_kind, get_type, mret, js_ret.
  rewrite Hitems. cbn [lookup list_lookup result reads app].
  destruct (String.eqb (kind it) "file"); cbn [negb andb result reads app]; try reflexivity.
  destruct (String.eqb (type it) "application/wasm"); reflexivity.
Qed.

Lemma isValidWasmDrop_accepts (dt : DataTransfer) (it : DataTransferItem) :
  result (isValidWasmDrop dt) = Normal (Some it) ↔ single_wasm_file dt it.
Proof.
  rewrite isValidWasmDrop_unfold. unfold single_wasm_file.
  destruct (items dt) as [|it0 [|it1 rest]]; cbn [result].
  - split; [discriminate | intros [? _]; discriminate].
  - destruct (String.eqb_spec (kind it0) "file") as [Hk|Hk];
      destruct (String.eqb_spec (type it0) "application/wasm") as [Ht|Ht];
      cbn [andb]; split;
      try discriminate;
      try (intros [[= ->] [? ?]]; contradiction).
    + intros [= ->]. auto.
    + intros [[= ->] _]. reflexivity.
  - split; [discriminate | intros [? _]; discriminate].
Qed.

Lemma isValidWasmDrop_returns (dt : DataTransfer) :
  ∃ v, result (isValidWasmDrop dt) = Normal v.
Proof.
  rewrite isValidWasmDrop_unfold.
  destruct (items dt) as [|it0 [|it1 rest]]; cbn [result]; eauto.
Qed.

Lemma isValidWasmDrop_rejects (dt : DataTransfer) :
  result (isValidWasmDrop dt) = Normal None ↔ ¬ ∃ it, single_wasm_file dt it.
Proof.
  split.
  - intros Hnone [it Hit]. apply isValidWasmDrop_accepts in Hit. congruence.
  - intros Hno. destruct (isValidWasmDrop_returns dt) as [[it|] Hv]; [|exact Hv].
    exfalso. apply Hno. exists it. by apply isValidWasmDrop_accepts.
Qed.

(** C2: [isValidWasmDrop] returns the dragged item exactly when the
    payload has one item, of kind ["file"] and of declared type
    ["application/wasm"]; on every other payload it returns [null].  Two
    items that are both [application/wasm] are such a payload. *)
Theorem isValidWasmDrop_iff_single_wasm_file (dt : DataTransfer) :
  (∀ it, result (isValidWasmDrop dt) = Normal (Some it) ↔ single_wasm_file dt it)
  ∧ (result (isValidWasmDrop dt) = Normal None ↔ ¬ ∃ it, single_wasm_file dt it)
  ∧ (∀ a b fs, result (isValidWasmDrop (mkDataTransfer [a; b] fs)) = Normal None).
Proof.
  split; [|split].
  - intros it. apply isValidWasmDrop_accepts.
  - apply isValidWasmDrop_rejects.
  - intros a b fs. by rewrite isValidWasmDrop_unfold.
Qed.

Lemma isValidWasmDrop_metadata (dt dt' : DataTransfer) :
  metadata dt = metadata dt' →
  seen (result (isValidWasmDrop dt)) = seen (result (isValidWasmDrop dt'))
  ∧ reads (isValidWasmDrop dt) = reads (isValidWasmDrop dt').
Proof.
  unfold metadata. intros Hmeta. rewrite !isValidWasmDrop_unfold.
  destruct (items dt) as [|a [|a' l]], (items dt') as [|b [|b' l']];
    cbn in Hmeta; try discriminate; try (split; reflexivity).
  injection Hmeta as Hk Ht. rewrite Hk, Ht. cbn [result reads seen].
  split; [|reflexivity].
  destruct (_ && _); cbn; by rewrite ?Hk, ?Ht.
Qed.

(** C8: the predicate is pure and deterministic.  Evaluating it inside
    a handler leaves the world as it was, evaluating it twice gives what
    evaluating it once gives, and on two payloads with the same item
    metadata it gives the same verdict and reads the same indices,
    whatever the data behind the items and whatever the file lists. *)
Theorem isValidWasmDrop_pure (dt dt' : DataTransfer) (w : World)
    (Hmeta : metadata dt = metadata dt') :
  exec (eval (isValidWasmDrop dt)) w = w
  ∧ runM (eval (isValidWasmDrop dt);; eval (isValidWasmDrop dt)) w
    = runM (eval (isValidWasmDrop dt)) w
  ∧ seen (result (isValidWasmDrop dt)) = seen (result (isValidWasmDrop dt'))
  ∧ reads (isValidWasmDrop dt) = reads (isValidWasmDrop dt').
Proof.
  split; [reflexivity|]. split.
  - destruct (isValidWasmDrop_returns dt) as [v Hv].
    unfold mbind, M_bind, eval. cbn [runM]. by rewrite Hv.
  - by apply isValidWasmDrop_metadata.
Qed.

Lemma isValidWasmDrop_pure_witness :
  metadata oneWasm = metadata (mkDataTransfer [mkItem "file" "application/wasm" ["x"%byte]] [])
  ∧ seen (result (isValidWasmDrop oneWasm))
    = seen (result (isValidWasmDrop (mkDataTransfer [mkItem "file" "application/wasm" ["x"%byte]] []))).
Proof.
  split; [reflexivity|].
  apply (isValidWasmDrop_pure oneWasm
           (mkDataTransfer [mkItem "file" "application/wasm" ["x"%byte]] []) freshPage).
  reflexivity.
Defined.

(** C10: on every payload, the empty one included, [isValidWasmDrop]
    returns a value and does not throw; every index of the item list it
    reads is within the list; it reads index 0 only, and only when the
    list has exactly one item. *)
Theorem isValidWasmDrop_in_bounds (dt : DataTransfer) :
  (∃ v, result (isValidWasmDrop dt) = Normal v)
  ∧ Forall (λ i, i < length (items dt)) (reads (isValidWasmDrop dt))
  ∧ (reads (isValidWasmDrop dt) = []
     ∨ reads (isValidWasmDrop dt) = [0] ∧ length (items dt) = 1)
  ∧ (length (items dt) ≠ 1 →
     isValidWasmDrop dt = mkJs [] (Normal None)).
Proof.
  split; [apply isValidWasmDrop_returns|].
  rewrite isValidWasmDrop_unfold.
  destruct (items dt) as [|it0 [|it1 rest]]; cbn [reads length].
  - split; [constructor|]. split; [by left|]. done.
  - split; [repeat constructor|]. split; [by right|]. done.
  - split; [constructor|]. split; [by left|]. done.
Qed.

(** ** The handlers *)

Section PageProperties.

Variable styles : Styles.
Variable renderFlameGraph : list byte → outcome (list byte).

Lemma accepted_iff (dt : DataTransfer) :
  accepted dt = true ↔ ∃ it, single_wasm_file dt it.
Proof.
  unfold accepted. split.
  - destruct (result (isValidWasmDrop dt)) as [[it|]|e] eqn:Hr; try discriminate.
    intros _. exists it. by apply isValidWasmDrop_accepts.
  - intros [it Hit]. apply isValidWasmDrop_accepts in Hit. by rewrite Hit.
Qed.

Lemma ondragover_run (dt : DataTransfer) (w : World) :
  runM (ondragover styles dt) w =
    (Normal (),
     set_classList
       (token_add (if accepted dt then dropValid styles else dropInvalid styles) (classList w))
       (set_defaultPrevented true w)).
Proof.
  unfold ondragover, accepted.
  destruct (isValidWasmDrop_returns dt) as [v Hv].
  cbn. rewrite Hv. by destruct v.
Qed.

Lemma ondrop_run (dt : DataTransfer) (w : World) :
  runM (ondrop styles dt) w =
    (Normal (),
     if accepted dt
     then set_pending (pending w ++ [files dt !! 0]) (after_reset styles w)
     else after_reset styles w).
Proof.
  unfold ondrop, accepted.
  destruct (isValidWasmDrop_returns dt) as [v Hv].
  cbn. rewrite Hv. by destruct v.
Qed.

Lemma ondragleave_run (w : World) :
  runM (ondragleave styles) w =
    (Normal (),
     set_classList (token_remove [dropValid styles; dropInvalid styles] (classList w)) w).
Proof. reflexivity. Qed.

(** *** Token lists *)

Lemma elem_of_token_add (x tok : string) (cl : list string) :
  x ∈ token_add tok cl ↔ x = tok ∨ x ∈ cl.
Proof.
  unfold token_add. case_bool_decide as Hin.
  - split; [auto | intros [-> | ?]; auto].
  - rewrite elem_of_app, list_elem_of_singleton. tauto.
Qed.

Lemma elem_of_token_remove (x : string) (toks cl : list string) :
  x ∈ token_remove toks cl ↔ x ∈ cl ∧ x ∉ toks.
Proof. unfold token_remove. rewrite list_elem_of_filter. tauto. Qed.

Lemma token_add_NoDup (tok : string) (cl : list string) :
  NoDup cl → NoDup (token_add tok cl).
Proof.
  intros Hnd. unfold token_add. case_bool_decide as Hin; [done|].
  apply NoDup_app. split; [done|]. split; [|apply NoDup_singleton].
  intros x Hx ->%list_elem_of_singleton. contradiction.
Qed.

Lemma token_remove_NoDup (toks cl : list string) :
  NoDup cl → NoDup (token_remove toks cl).
Proof. apply NoDup_filter. Qed.

(** *** Decorations *)

Lemma decoration_Some (cl : list string) (s : DropState) :
  decoration styles cl = Some s ↔
    match s with
    | Neutral => (dropValid styles ∉ cl) ∧ (dropInvalid styles ∉ cl)
    | Valid => (dropValid styles ∈ cl) ∧ (dropInvalid styles ∉ cl)
    | Invalid => (dropValid styles ∉ cl) ∧ (dropInvalid styles ∈ cl)
    end.
Proof.
  unfold decoration.
  do 2 case_bool_decide; destruct s; split;
    try discriminate; try tauto; intros _; reflexivity.
Qed.

Lemma decoration_None (cl : list string) :
  decoration styles cl = None ↔ dropValid styles ∈ cl ∧ dropInvalid styles ∈ cl.
Proof.
  unfold decoration.
  do 2 case_bool_decide; split; try discriminate; try tauto.
Qed.

Lemma decoration_reset (cl : list string) :
  decoration styles (token_remove [dropValid styles; dropInvalid styles] cl) = Some Neutral.
Proof.
  apply decoration_Some. rewrite !elem_of_token_remove.
  split; intros [_ Hnot]; apply Hnot; set_solver.
Qed.

(** C5: whatever the drop-signal element shows, a drag-leave event
    leaves it Neutral. *)
Theorem dragleave_resets (w : World) :
  DropState_of styles (step styles renderFlameGraph DragLeave w) = Some Neutral.
Proof.
  unfold step, dispatch. rewrite ondragleave_run. cbn [report].
  unfold DropState_of. cbn [classList set_classList].
  apply decoration_reset.
Qed.

(** *** Drops *)

Lemma step_Drop (dt : DataTransfer) (w : World) :
  step styles renderFlameGraph (Drop dt) w =
    if accepted dt
    then set_pending (pending w ++ [files dt !! 0]) (after_reset styles w)
    else after_reset styles w.
Proof.
  unfold step, dispatch. rewrite ondrop_run. cbn [report].
  by destruct (accepted dt).
Qed.

(** C3: a drop whose payload is one item of kind ["file"] and declared
    type ["application/wasm"] prevents the default action, leaves the
    decoration Neutral and calls [process] once, on the first file of
    the dropped file list; nothing else changes and the handler returns
    normally. *)
Theorem drop_valid_calls_process (dt : DataTransfer) (it : DataTransferItem) (w : World)
    (Hvalid : single_wasm_file dt it) :
  let w' := step styles renderFlameGraph (Drop dt) w in
  ends (ondrop styles dt) (set_defaultPrevented false w) = Normal ()
  ∧ defaultPrevented w' = true
  ∧ DropState_of styles w' = Some Neutral
  ∧ pending w' = pending w ++ [head (files dt)]
  ∧ blobs w' = blobs w ∧ href w' = href w ∧ trace w' = trace w
  ∧ uncaught w' = uncaught w.
Proof.
  assert (accepted dt = true) as Hacc by (apply accepted_iff; eauto).
  cbn zeta. rewrite step_Drop, Hacc. unfold ends. rewrite ondrop_run.
  unfold DropState_of. cbn [fst classList set_pending after_reset set_classList
    defaultPrevented set_defaultPrevented pending blobs href trace uncaught].
  rewrite decoration_reset, head_lookup. done.
Qed.

(** C4: a drop whose payload is anything else leaves the decoration
    Neutral and does not call [process]; the handler returns normally,
    nothing is reported and nothing but the decoration changes. *)
Theorem drop_invalid_is_discarded (dt : DataTransfer) (w : World)
    (Hinvalid : ¬ ∃ it, single_wasm_file dt it) :
  let w' := step styles renderFlameGraph (Drop dt) w in
  ends (ondrop styles dt) (set_defaultPrevented false w) = Normal ()
  ∧ defaultPrevented w' = true
  ∧ DropState_of styles w' = Some Neutral
  ∧ pending w' = pending w
  ∧ blobs w' = blobs w ∧ href w' = href w ∧ trace w' = trace w
  ∧ uncaught w' = uncaught w.
Proof.
  assert (accepted dt = false) as Hacc.
  { destruct (accepted dt) eqn:Hacc; [|done].
    apply accepted_iff in Hacc. contradiction. }
  cbn zeta. rewrite step_Drop, Hacc. unfold ends. rewrite ondrop_run.
  unfold DropState_of. cbn [fst classList after_reset set_classList
    defaultPrevented set_defaultPrevented pending blobs href trace uncaught].
  rewrite decoration_reset. done.
Qed.

(** *** Drag-overs and the state machine *)

Lemma process_classList (file : option File) (w : World) :
  classList (report (runM (process renderFlameGraph file) w)) = classList w.
Proof.
  unfold process, await_renderFlameGraph. cbn.
  by destruct (renderFlameGraph (body file)).
Qed.

Lemma step_classList (i : Input) (w : World) :
  classList (step styles renderFlameGraph i w) =
    match i with
    | DragOver dt =>
        token_add (if accepted dt then dropValid styles else dropInvalid styles) (classList w)
    | DragLeave | Drop _ =>
        token_remove [dropValid styles; dropInvalid styles] (classList w)
    | Change _ | Settle => classList w
    end.
Proof.
  destruct i as [dt| |dt|fs|].
  - unfold step, dispatch. by rewrite ondragover_run.
  - reflexivity.
  - rewrite step_Drop. by destruct (accepted dt).
  - reflexivity.
  - unfold step. destruct (pending w) as [|file rest]; [done|].
    by rewrite process_classList.
Qed.

Lemma DropState_eqb_eq (a b : DropState) : DropState_eqb a b = true ↔ a = b.
Proof. destruct a, b; cbn; split; congruence. Qed.

Lemma steady_app (s : DropState) (l1 l2 : list Input) :
  steady s (l1 ++ l2) = steady s l1 && steady (track s l1) l2.
Proof.
  revert s. induction l1 as [|i l1 IH]; intros s; [done|].
  cbn [app steady]. rewrite IH. unfold track. cbn [foldl].
  by rewrite andb_assoc.
Qed.

Lemma run_app (l1 l2 : list Input) (w : World) :
  run styles renderFlameGraph (l1 ++ l2) w
  = run styles renderFlameGraph l2 (run styles renderFlameGraph l1 w).
Proof. unfold run. apply foldl_app. Qed.

Lemma run_cons (i : Input) (rest : list Input) (w : World) :
  run styles renderFlameGraph (i :: rest) w
  = run styles renderFlameGraph rest (step styles renderFlameGraph i w).
Proof. reflexivity. Qed.

(** The class list stays a token list: no step introduces a repeat. *)
Lemma run_classList_NoDup (inputs : list Input) (w : World) :
  NoDup (classList w) →
  NoDup (classList (run styles renderFlameGraph inputs w)).
Proof.
  revert w. induction inputs as [|i rest IH]; intros w Hnd; [done|].
  rewrite run_cons. apply IH. rewrite step_classList.
  destruct i; auto using token_add_NoDup, token_remove_NoDup.
Qed.

Section Distinct.

(** The stylesheet gives the two markers different class names. *)
Hypothesis markers_distinct : dropValid styles ≠ dropInvalid styles.

Lemma step_decoration (s : DropState) (i : Input) (w : World) :
  DropState_of styles w = Some s →
  steady s [i] = true →
  DropState_of styles (step styles renderFlameGraph i w) = Some (next s i).
Proof.
  unfold DropState_of. intros Hs Hi. rewrite step_classList.
  destruct i as [dt| |dt|fs|]; cbn [next];
    try apply decoration_reset; try exact Hs.
  cbn [steady] in Hi. rewrite andb_true_r in Hi.
  apply orb_true_iff in Hi. rewrite !DropState_eqb_eq in Hi.
  apply decoration_Some in Hs. apply decoration_Some.
  unfold verdict in *.
  destruct (accepted dt), s, Hi as [Hi|Hi]; try discriminate;
    rewrite !elem_of_token_add; intuition congruence.
Qed.

Lemma run_decoration (inputs : list Input) (s : DropState) (w : World) :
  DropState_of styles w = Some s →
  steady s inputs = true →
  DropState_of styles (run styles renderFlameGraph inputs w) = Some (track s inputs).
Proof.
  revert s w. induction inputs as [|i rest IH]; intros s w Hs Hsteady; [exact Hs|].
  change (i :: rest) with ([i] ++ rest) in Hsteady.
  rewrite steady_app in Hsteady. apply andb_true_iff in Hsteady as [Hi Hrest].
  unfold run, track. cbn [foldl]. apply IH; [|exact Hrest].
  by apply step_decoration.
Qed.

(** C1, as the script has it: from a Neutral decoration, along a
    sequence of inputs in which no drag-over contradicts the decoration
    already shown, the decoration is at every moment one of Neutral,
    Valid and Invalid, namely the one the state machine gives; a
    drag-over then leaves exactly the decoration of its verdict.  In any
    world a drag-over adds the marker of its verdict to the class list
    and removes nothing. *)
Theorem decoration_follows_state_machine (inputs : list Input) (w : World) (k : nat)
    (Hinit : DropState_of styles w = Some Neutral)
    (Hsteady : steady Neutral inputs = true) :
  DropState_of styles (run styles renderFlameGraph (take k inputs) w)
    = Some (track Neutral (take k inputs))
  ∧ (∀ dt, inputs !! k = Some (DragOver dt) →
       DropState_of styles (run styles renderFlameGraph (take (S k) inputs) w)
         = Some (verdict dt))
  ∧ (∀ dt w1,
       classList (step styles renderFlameGraph (DragOver dt) w1)
         = token_add (if accepted dt then dropValid styles else dropInvalid styles)
             (classList w1)).
Proof.
  rewrite <- (take_drop k inputs), steady_app in Hsteady.
  apply andb_true_iff in Hsteady as [Hpre Hpost].
  split; [by apply run_decoration|]. split.
  - intros dt Hk. rewrite (take_S_r _ _ _ Hk), run_app.
    rewrite (drop_S _ _ _ Hk) in Hpost.
    change (DragOver dt :: drop (S k) inputs)
      with ([DragOver dt] ++ drop (S k) inputs) in Hpost.
    rewrite steady_app in Hpost. apply andb_true_iff in Hpost as [Hdt _].
    unfold run at 1. cbn [foldl].
    rewrite (step_decoration (track Neutral (take k inputs))); [done| |done].
    by apply run_decoration.
  - intros dt w1. apply (step_classList (DragOver dt)).
Qed.

End Distinct.

End PageProperties.

(** ** The function [process] *)

Section ProcessProperties.

Variable styles : Styles.
Variable renderFlameGraph : list byte → outcome (list byte).

Lemma process_resolved (file : option File) (w : World) (svg : list byte) :
  renderFlameGraph (body file) = Normal svg →
  runM (process renderFlameGraph file) w =
    (Normal (),
     let id := fresh (dom (blobs w)) in
     mkWorld (classList w) (defaultPrevented w) (pending w)
       (<[id := svgFile_of svg]> (blobs w)) (BlobURL id)
       (trace w ++ [ReadBody file (body file); Render (body file);
                    NewFile (svgFile_of svg); CreateObjectURL (svgFile_of svg) id;
                    Navigate (BlobURL id)])
       (uncaught w)).
Proof.
  intros Hsvg. unfold process, await_renderFlameGraph.
  cbn -[fresh dom insert]. rewrite Hsvg. cbn -[fresh dom insert].
  unfold set_trace, set_href, set_blobs.
  cbn [classList defaultPrevented pending blobs href trace uncaught].
  by rewrite <- !app_assoc.
Qed.

Lemma process_rejected (file : option File) (w : World) (e : exn) :
  renderFlameGraph (body file) = Throw e →
  runM (process renderFlameGraph file) w =
    (Throw e, set_trace (trace w ++ [ReadBody file (body file); Render (body file)]) w).
Proof.
  intros Hfail. unfold process, await_renderFlameGraph.
  cbn -[fresh dom insert]. rewrite Hfail. cbn.
  unfold set_trace. cbn [classList defaultPrevented pending blobs href trace uncaught].
  by rewrite <- !app_assoc.
Qed.

Lemma fresh_url_not_live (w : World) : blobs w !! fresh (dom (blobs w)) = None.
Proof. apply not_elem_of_dom, is_fresh. Qed.

(** C6: when the renderer resolves, [process] makes exactly these host
    calls, in this order: it reads the whole body of the file into a
    buffer, renders that buffer, wraps the payload as the file
    [flamegraph.svg] of type [image/svg+xml], creates an object URL for
    that file, and points the location bar at that URL.  The URL was not
    live before and is live afterwards. *)
Theorem process_steps_in_order (file : option File) (w : World) (svg : list byte)
    (Hsvg : renderFlameGraph (body file) = Normal svg) :
  let w' := exec (process renderFlameGraph file) w in
  let svgFile := svgFile_of svg in
  let id := fresh (dom (blobs w)) in
  ends (process renderFlameGraph file) w = Normal ()
  ∧ (∀ f, file = Some f → body file = fileBytes f)
  ∧ trace w' = trace w ++ [ReadBody file (body file); Render (body file);
                           NewFile svgFile; CreateObjectURL svgFile id;
                           Navigate (BlobURL id)]
  ∧ svgFile = mkFile "flamegraph.svg" "image/svg+xml" svg
  ∧ blobs w !! id = None
  ∧ blobs w' = <[id := svgFile]> (blobs w)
  ∧ href w' = BlobURL id
  ∧ classList w' = classList w ∧ pending w' = pending w ∧ uncaught w' = uncaught w.
Proof.
  cbn zeta. unfold ends, exec. rewrite (process_resolved _ _ _ Hsvg).
  cbn [fst snd classList pending blobs href trace uncaught].
  split; [done|]. split; [by intros f ->|].
  do 2 (split; [done|]). split; [apply fresh_url_not_live|]. done.
Qed.

(** C7: when the renderer fails, [process] does not catch the failure:
    its promise is rejected with it and the event loop reports it as
    unhandled.  After the read and the call of the renderer no further
    host call is made: no file is built, the set of live object URLs and
    the location bar stay as they were. *)
Theorem process_render_failure (file : option File) (rest : list (option File))
    (w : World) (e : exn)
    (Hfail : renderFlameGraph (body file) = Throw e) :
  let w' := exec (process renderFlameGraph file) w in
  ends (process renderFlameGraph file) w = Throw e
  ∧ trace w' = trace w ++ [ReadBody file (body file); Render (body file)]
  ∧ blobs w' = blobs w
  ∧ href w' = href w
  ∧ uncaught (step styles renderFlameGraph Settle (set_pending (file :: rest) w))
    = uncaught w ++ [e].
Proof.
  cbn zeta. unfold ends, exec, step. cbn [pending set_pending].
  rewrite !(process_rejected _ _ _ Hfail). done.
Qed.

(** *** Object URLs *)

Lemma process_blobs (file : option File) (w : World) :
  blobs w ⊆ blobs (report (runM (process renderFlameGraph file) w)).
Proof.
  destruct (renderFlameGraph (body file)) as [svg|e] eqn:Hr.
  - rewrite (process_resolved _ _ _ Hr). cbn [report blobs].
    apply insert_subseteq, fresh_url_not_live.
  - by rewrite (process_rejected _ _ _ Hr).
Qed.

Lemma process_trace (file : option File) (w : World) :
  ∃ t, trace (report (runM (process renderFlameGraph file) w)) = trace w ++ t
       ∧ forallb (λ c, negb (is_revoke c)) t = true.
Proof.
  destruct (renderFlameGraph (body file)) as [svg|e] eqn:Hr.
  - rewrite (process_resolved _ _ _ Hr). cbn [report trace]. eauto.
  - rewrite (process_rejected _ _ _ Hr). cbn [report trace set_uncaught set_trace]. eauto.
Qed.

Lemma step_blobs (i : Input) (w : World) :
  blobs w ⊆ blobs (step styles renderFlameGraph i w).
Proof.
  destruct i as [dt| |dt|fs|].
  - unfold step, dispatch. by rewrite ondragover_run.
  - done.
  - rewrite step_Drop. by destruct (accepted dt).
  - done.
  - unfold step. destruct (pending w) as [|file rest]; [done|].
    apply (process_blobs file (set_pending rest w)).
Qed.

Lemma step_trace (i : Input) (w : World) :
  ∃ t, trace (step styles renderFlameGraph i w) = trace w ++ t
       ∧ forallb (λ c, negb (is_revoke c)) t = true.
Proof.
  destruct i as [dt| |dt|fs|].
  - exists []. unfold step, dispatch. rewrite ondragover_run. by rewrite app_nil_r.
  - exists []. by rewrite app_nil_r.
  - exists []. rewrite step_Drop, app_nil_r. by destruct (accepted dt).
  - exists []. by rewrite app_nil_r.
  - unfold step. destruct (pending w) as [|file rest].
    + exists []. by rewrite app_nil_r.
    + apply (process_trace file (set_pending rest w)).
Qed.

Lemma run_blobs (inputs : list Input) (w : World) :
  blobs w ⊆ blobs (run styles renderFlameGraph inputs w).
Proof.
  revert w. induction inputs as [|i rest IH]; intros w; [done|].
  unfold run. cbn [foldl]. etrans; [apply (step_blobs i)|apply IH].
Qed.

Lemma run_trace (inputs : list Input) (w : World) :
  ∃ t, trace (run styles renderFlameGraph inputs w) = trace w ++ t
       ∧ forallb (λ c, negb (is_revoke c)) t = true.
Proof.
  revert w. induction inputs as [|i rest IH]; intros w.
  - exists []. by rewrite app_nil_r.
  - unfold run. cbn [foldl].
    destruct (step_trace i w) as (t1 & Ht1 & Hn1).
    destruct (IH (step styles renderFlameGraph i w)) as (t2 & Ht2 & Hn2).
    exists (t1 ++ t2). split.
    + unfold run in Ht2. by rewrite Ht2, Ht1, app_assoc.
    + rewrite forallb_app. by rewrite Hn1, Hn2.
Qed.

Lemma settle_all_size (fs : list (option File)) (w : World) :
  Forall (renders renderFlameGraph) fs →
  pending w = fs →
  size (blobs (run styles renderFlameGraph (replicate (length fs) Settle) w))
  = size (blobs w) + length fs.
Proof.
  revert w. induction fs as [|f fs IH]; intros w Hok Hpending.
  - cbn. lia.
  - apply Forall_cons in Hok as [[svg Hsvg] Hok].
    cbn [length replicate]. rewrite run_cons.
    assert (step styles renderFlameGraph Settle w
            = exec (process renderFlameGraph f) (set_pending fs w)) as ->.
    { unfold step, exec. rewrite Hpending.
      by rewrite (process_resolved _ _ _ Hsvg). }
    unfold exec. rewrite (process_resolved _ _ _ Hsvg). cbn [snd].
    rewrite IH; [|done|done]. cbn [blobs set_pending pending].
    rewrite map_size_insert_None by apply fresh_url_not_live. lia.
Qed.

(** C9: no step of the page releases an object URL: along every
    sequence of inputs the live URLs stay live and no host call revokes
    one.  Each call of [process] whose render resolves adds one, so
    after [n] such calls there are [n] more live URLs than before. *)
Theorem object_urls_accumulate (inputs : list Input) (fs : list (option File)) (w : World)
    (Hok : Forall (renders renderFlameGraph) fs) :
  let w1 := run styles renderFlameGraph inputs w in
  let w2 := run styles renderFlameGraph (replicate (length fs) Settle) (set_pending fs w) in
  blobs w ⊆ blobs w1
  ∧ (∃ t, trace w1 = trace w ++ t ∧ forallb (λ c, negb (is_revoke c)) t = true)
  ∧ blobs w ⊆ blobs w2
  ∧ size (blobs w2) = size (blobs w) + length fs.
Proof.
  cbn zeta. split; [apply run_blobs|]. split; [apply run_trace|]. split.
  - apply (run_blobs _ (set_pending fs w)).
  - by rewrite settle_all_size.
Qed.

End ProcessProperties.

(** ** The theorems at sample inputs *)

(** The scenarios of the drop zone, run on a page that has just
    loaded. *)
Example dragover_one_wasm :
  DropState_of css (step css renderAll (DragOver oneWasm) freshPage) = Some Valid.
Proof. reflexivity. Qed.

Example dragover_one_text :
  DropState_of css (step css renderAll (DragOver oneText) freshPage) = Some Invalid.
Proof. reflexivity. Qed.

Example dragover_two_wasm :
  DropState_of css (step css renderAll (DragOver twoWasm) freshPage) = Some Invalid
  ∧ reads (isValidWasmDrop twoWasm) = [].
Proof. split; reflexivity. Qed.

Example dragover_nothing :
  isValidWasmDrop nothing = mkJs [] (Normal None).
Proof. reflexivity. Qed.

Example drop_then_settle :
  let w := run css renderStrict [DragOver oneWasm; Drop oneWasm; Settle] freshPage in
  DropState_of css w = Some Neutral
  ∧ pending w = []
  ∧ href w = BlobURL 0
  ∧ blobs w !! 0 = Some (svgFile_of ["<"%byte; "s"%byte; "v"%byte; "g"%byte; ">"%byte])
  ∧ uncaught w = [].
Proof. cbn zeta. repeat split; reflexivity. Qed.

Example pick_text_then_settle :
  let w := run css renderStrict [Change [mkFile "a.txt" "text/plain" ["h"%byte]]; Settle] freshPage in
  href w = PageURL ∧ blobs w = ∅ ∧ uncaught w = [Rejection "not a wasm module"].
Proof. cbn zeta. repeat split; reflexivity. Qed.

Lemma decoration_follows_state_machine_witness :
  dropValid css ≠ dropInvalid css
  ∧ DropState_of css freshPage = Some Neutral
  ∧ steady Neutral sampleDrag = true
  ∧ DropState_of css (run css renderAll (take 4 sampleDrag) freshPage) = Some Invalid.
Proof.
  assert (dropValid css ≠ dropInvalid css) as Hne by discriminate.
  assert (DropState_of css freshPage = Some Neutral) as Hinit by reflexivity.
  assert (steady Neutral sampleDrag = true) as Hsteady by reflexivity.
  split; [exact Hne|]. split; [exact Hinit|]. split; [exact Hsteady|].
  apply (decoration_follows_state_machine css renderAll Hne sampleDrag freshPage 4
           Hinit Hsteady).
Defined.

(** C1 as stated fails: a drag-over that is accepted followed, with no
    drag-leave or drop in between, by one that is not leaves both
    markers on the drop-signal element, which is then neither Neutral,
    nor Valid, nor Invalid. *)
Lemma dragover_markers_accumulate :
  let w := run css renderAll [DragOver oneWasm; DragOver oneText] freshPage in
  DropState_of css freshPage = Some Neutral
  ∧ verdict oneText = Invalid
  ∧ classList w = ["drop-signal"; "drop-valid"; "drop-invalid"]
  ∧ DropState_of css w ≠ Some Invalid
  ∧ ¬ ∃ s, DropState_of css w = Some s.
Proof.
  cbn zeta. split; [reflexivity|]. split; [reflexivity|]. split; [reflexivity|].
  split; [discriminate|]. intros [s Hs]. discriminate Hs.
Qed.

Lemma drop_valid_calls_process_witness :
  single_wasm_file oneWasm wasmItem
  ∧ pending (step css renderAll (Drop oneWasm) freshPage) = [Some wasmFile].
Proof.
  assert (single_wasm_file oneWasm wasmItem) as Hvalid by (repeat split; reflexivity).
  split; [exact Hvalid|].
  apply (drop_valid_calls_process css renderAll oneWasm wasmItem freshPage Hvalid).
Defined.

Lemma drop_invalid_is_discarded_witness :
  (¬ ∃ it, single_wasm_file twoWasm it)
  ∧ pending (step css renderAll (Drop twoWasm) freshPage) = [].
Proof.
  assert (¬ ∃ it, single_wasm_file twoWasm it) as Hinvalid.
  { intros [it [Hitems _]]. discriminate Hitems. }
  split; [exact Hinvalid|].
  apply (drop_invalid_is_discarded css renderAll twoWasm freshPage Hinvalid).
Defined.

Lemma process_steps_in_order_witness :
  renderStrict (body (Some wasmFile)) = Normal ["<"%byte; "s"%byte; "v"%byte; "g"%byte; ">"%byte]
  ∧ href (exec (process renderStrict (Some wasmFile)) freshPage)
    = BlobURL (fresh (dom (blobs freshPage))).
Proof.
  split; [reflexivity|].
  apply (process_steps_in_order renderStrict (Some wasmFile) freshPage
           ["<"%byte; "s"%byte; "v"%byte; "g"%byte; ">"%byte]).
  reflexivity.
Defined.

(** C6 as stated fails: [process] does not go through its five steps
    on every file.  A text file, which the file picker lets through,
    with a renderer that rejects it: the run ends with that rejection
    after the read and the call of the renderer; no file is built, no
    URL is created and the page stays where it was. *)
Lemma process_stops_after_rejected_render :
  let w' := exec (process renderStrict (Some notesFile)) freshPage in
  pending (step css renderStrict (Change [notesFile]) freshPage) = [Some notesFile]
  ∧ ends (process renderStrict (Some notesFile)) freshPage
    = Throw (Rejection "not a wasm module")
  ∧ trace w' = [ReadBody (Some notesFile) (fileBytes notesFile);
                Render (fileBytes notesFile)]
  ∧ blobs w' = ∅
  ∧ href w' = PageURL
  ∧ ¬ ∃ svgFile id,
        trace w' = trace freshPage
                   ++ [ReadBody (Some notesFile) (body (Some notesFile));
                       Render (body (Some notesFile));
                       NewFile svgFile; CreateObjectURL svgFile id;
                       Navigate (BlobURL id)].
Proof.
  cbn zeta. do 5 (split; [reflexivity|]).
  intros (svgFile & id & Htrace). discriminate Htrace.
Qed.

Lemma process_render_failure_witness :
  renderStrict (body None) = Throw (Rejection "not a wasm module")
  ∧ ends (process renderStrict None) freshPage = Throw (Rejection "not a wasm module").
Proof.
  split; [reflexivity|].
  apply (process_render_failure css renderStrict None [] freshPage
           (Rejection "not a wasm module")).
  reflexivity.
Defined.

Lemma object_urls_accumulate_witness :
  Forall (renders renderStrict) [Some wasmFile; Some wasmFile]
  ∧ size (blobs (run css renderStrict (replicate 2 Settle)
                   (set_pending [Some wasmFile; Some wasmFile] freshPage)))
    = size (blobs freshPage) + 2.
Proof.
  assert (Forall (renders renderStrict) [Some wasmFile; Some wasmFile]) as Hok.
  { repeat constructor; eexists; reflexivity. }
  split; [exact Hok|].
  apply (object_urls_accumulate css renderStrict [] [Some wasmFile; Some wasmFile]
           freshPage Hok).
Defined.

(** ** The page as a whole *)

Section WholePage.

Variable styles : Styles.
Variable renderFlameGraph : list byte → outcome (list byte).

Local Abbreviation step' := (step styles renderFlameGraph).
Local Abbreviation run' := (run styles renderFlameGraph).

(** *** What each input does to the world *)

Lemma step_DragOver (dt : DataTransfer) (w : World) :
  step' (DragOver dt) w =
    mkWorld
      (token_add (if accepted dt then dropValid styles else dropInvalid styles) (classList w))
      true (pending w) (blobs w) (href w) (trace w) (uncaught w).
Proof. unfold step, dispatch. by rewrite ondragover_run. Qed.

Lemma step_DragLeave (w : World) :
  step' DragLeave w =
    mkWorld (token_remove [dropValid styles; dropInvalid styles] (classList w))
      false (pending w) (blobs w) (href w) (trace w) (uncaught w).
Proof. reflexivity. Qed.

Lemma step_Change (fs : list File) (w : World) :
  step' (Change fs) w =
    mkWorld (classList w) false (pending w ++ [head fs]) (blobs w) (href w)
      (trace w) (uncaught w).
Proof. unfold step, dispatch, onchange. cbn. by rewrite head_lookup. Qed.

Lemma step_Drop_accepted (dt : DataTransfer) (w : World) :
  accepted dt = true →
  step' (Drop dt) w =
    mkWorld (token_remove [dropValid styles; dropInvalid styles] (classList w))
      true (pending w ++ [head (files dt)]) (blobs w) (href w) (trace w) (uncaught w).
Proof. intros Hacc. rewrite step_Drop, Hacc, head_lookup. reflexivity. Qed.

Lemma step_Drop_refused (dt : DataTransfer) (w : World) :
  accepted dt = false →
  step' (Drop dt) w =
    mkWorld (token_remove [dropValid styles; dropInvalid styles] (classList w))
      true (pending w) (blobs w) (href w) (trace w) (uncaught w).
Proof. intros Hacc. rewrite step_Drop, Hacc. reflexivity. Qed.

Lemma step_Settle_idle (w : World) :
  pending w = [] → step' Settle w = w.
Proof. intros Hp. unfold step. by rewrite Hp. Qed.

Lemma step_Settle_resolved (file : option File) (rest : list (option File))
    (svg : list byte) (w : World) :
  pending w = file :: rest →
  renderFlameGraph (body file) = Normal svg →
  step' Settle w =
    let id := fresh (dom (blobs w)) in
    mkWorld (classList w) (defaultPrevented w) rest
      (<[id := svgFile_of svg]> (blobs w)) (BlobURL id)
      (trace w ++ [ReadBody file (body file); Render (body file);
                   NewFile (svgFile_of svg); CreateObjectURL (svgFile_of svg) id;
                   Navigate (BlobURL id)])
      (uncaught w).
Proof.
  intros Hp Hsvg. unfold step. rewrite Hp.
  by rewrite (process_resolved _ _ _ _ Hsvg).
Qed.

Lemma step_Settle_rejected (file : option File) (rest : list (option File))
    (e : exn) (w : World) :
  pending w = file :: rest →
  renderFlameGraph (body file) = Throw e →
  step' Settle w =
    mkWorld (classList w) (defaultPrevented w) rest (blobs w) (href w)
      (trace w ++ [ReadBody file (body file); Render (body file)])
      (uncaught w ++ [e]).
Proof.
  intros Hp Hfail. unfold step. rewrite Hp.
  by rewrite (process_rejected _ _ _ _ Hfail).
Qed.

(** The three ways a [Settle] can go. *)
Lemma step_Settle_cases (w : World) :
  (pending w = [] ∧ step' Settle w = w)
  ∨ (∃ file rest e,
       pending w = file :: rest ∧ renderFlameGraph (body file) = Throw e
       ∧ step' Settle w =
           mkWorld (classList w) (defaultPrevented w) rest (blobs w) (href w)
             (trace w ++ [ReadBody file (body file); Render (body file)])
             (uncaught w ++ [e]))
  ∨ (∃ file rest svg,
       pending w = file :: rest ∧ renderFlameGraph (body file) = Normal svg
       ∧ step' Settle w =
           mkWorld (classList w) (defaultPrevented w) rest
             (<[fresh (dom (blobs w)) := svgFile_of svg]> (blobs w))
             (BlobURL (fresh (dom (blobs w))))
             (trace w ++ [ReadBody file (body file); Render (body file);
                          NewFile (svgFile_of svg);
                          CreateObjectURL (svgFile_of svg) (fresh (dom (blobs w)));
                          Navigate (BlobURL (fresh (dom (blobs w))))])
             (uncaught w)).
Proof.
  destruct (pending w) as [|file rest] eqn:Hp.
  - left. split; [done|]. by apply step_Settle_idle.
  - right. destruct (renderFlameGraph (body file)) as [svg|e] eqn:Hr.
    + right. exists file, rest, svg. split; [done|]. split; [done|].
      by apply step_Settle_resolved.
    + left. exists file, rest, e. split; [done|]. split; [done|].
      by apply step_Settle_rejected.
Qed.

(** *** Drag events *)

(** A drag-over, whatever its payload, prevents the default action and
    touches nothing but the class list, where it removes nothing: it
    starts no render, creates no URL, does not navigate and reports no
    error. *)
Theorem dragover_only_decorates (dt : DataTransfer) (w : World) :
  let w' := step' (DragOver dt) w in
  defaultPrevented w' = true
  ∧ (∀ c, c ∈ classList w → c ∈ classList w')
  ∧ pending w' = pending w ∧ blobs w' = blobs w ∧ href w' = href w
  ∧ trace w' = trace w ∧ uncaught w' = uncaught w.
Proof.
  cbn zeta. rewrite step_DragOver.
  cbn [defaultPrevented classList pending blobs href trace uncaught].
  split; [done|]. split; [|done].
  intros c Hc. apply elem_of_token_add. by right.
Qed.

Lemma token_add_idemp (tok : string) (cl : list string) :
  token_add tok (token_add tok cl) = token_add tok cl.
Proof.
  unfold token_add at 1. rewrite bool_decide_eq_true_2; [done|].
  apply elem_of_token_add. by left.
Qed.

Lemma token_remove_idemp (toks cl : list string) :
  token_remove toks (token_remove toks cl) = token_remove toks cl.
Proof.
  unfold token_remove. induction cl as [|c cl IH]; [done|].
  rewrite (filter_cons _ c cl). destruct (decide (c ∉ toks)) as [Hc|Hc]; [|done].
  rewrite filter_cons. rewrite decide_True by done. by rewrite IH.
Qed.

(** While a drag hovers, the browser repeats the drag-over event with
    the same payload: the second and later ones change nothing.  The
    same holds for a repeated drag-leave. *)
Theorem repeated_drag_event_changes_nothing (dt : DataTransfer) (w : World) :
  step' (DragOver dt) (step' (DragOver dt) w) = step' (DragOver dt) w
  ∧ step' DragLeave (step' DragLeave w) = step' DragLeave w.
Proof.
  rewrite !step_DragOver, !step_DragLeave.
  cbn [classList pending blobs href trace uncaught].
  by rewrite token_add_idemp, token_remove_idemp.
Qed.

(** No input adds or removes a class other than the two markers: the
    classes the page gave the drop-signal element stay, and no other
    class ever appears. *)
Theorem other_classes_untouched (inputs : list Input) (w : World) (c : string)
    (Hvalid : c ≠ dropValid styles) (Hinvalid : c ≠ dropInvalid styles) :
  c ∈ classList (run' inputs w) ↔ c ∈ classList w.
Proof.
  revert w. induction inputs as [|i rest IH]; intros w; [done|].
  rewrite run_cons, IH, step_classList. clear IH.
  assert (c ∈ token_remove [dropValid styles; dropInvalid styles] (classList w)
          ↔ c ∈ classList w) as Hremove.
  { rewrite elem_of_token_remove, !not_elem_of_cons.
    pose proof (not_elem_of_nil c). tauto. }
  destruct i as [dt| |dt|fs|]; try done.
  rewrite elem_of_token_add. destruct (accepted dt); intuition congruence.
Qed.

Section DistinctMarkers.

Hypothesis markers_distinct : dropValid styles ≠ dropInvalid styles.

(** A drag that enters after the previous one left shows the verdict of
    the predicate, whatever the element showed before: Valid exactly
    for a single item of kind file and type application/wasm, Invalid
    exactly for anything else. *)
Theorem dragover_after_dragleave_shows_verdict (dt : DataTransfer) (w : World) :
  let w' := run' [DragLeave; DragOver dt] w in
  (DropState_of styles w' = Some Valid ↔ ∃ it, single_wasm_file dt it)
  ∧ (DropState_of styles w' = Some Invalid ↔ ¬ ∃ it, single_wasm_file dt it).
Proof.
  cbn zeta. rewrite <- accepted_iff.
  assert (DropState_of styles (run' [DragLeave; DragOver dt] w) = Some (verdict dt)) as ->.
  { apply (run_decoration styles renderFlameGraph markers_distinct
             [DragOver dt] Neutral (step' DragLeave w)).
    - unfold DropState_of. rewrite step_DragLeave. apply decoration_reset.
    - reflexivity. }
  unfold verdict. destruct (accepted dt); split; split; congruence.
Qed.

End DistinctMarkers.

Lemma token_remove_absent (toks cl : list string) :
  (∀ c, c ∈ cl → c ∉ toks) → token_remove toks cl = cl.
Proof.
  unfold token_remove. induction cl as [|c cl IH]; intros Habsent; [done|].
  rewrite filter_cons, decide_True by (apply Habsent; left).
  rewrite IH; [done|]. intros c' Hc'. apply Habsent. by right.
Qed.

Lemma token_remove_added (tok : string) (toks cl : list string) :
  tok ∈ toks →
  (∀ c, c ∈ cl → c ∉ toks) →
  token_remove toks (token_add tok cl) = cl.
Proof.
  intros Htok Habsent. unfold token_add.
  rewrite bool_decide_eq_false_2 by (intros Hin; by apply (Habsent tok)).
  unfold token_remove. rewrite filter_app, filter_cons, decide_False by tauto.
  rewrite filter_nil, app_nil_r. by apply token_remove_absent.
Qed.

(** A drag that hovers over a Neutral page and then leaves, or is
    dropped, puts the class list back exactly as it was, order
    included, whatever the payloads were. *)
Theorem dragover_then_reset_restores_classList (dt dt' : DataTransfer) (w : World)
    (Hneutral : DropState_of styles w = Some Neutral) :
  classList (run' [DragOver dt; DragLeave] w) = classList w
  ∧ classList (run' [DragOver dt; Drop dt'] w) = classList w.
Proof.
  apply decoration_Some in Hneutral as [Hvalid Hinvalid].
  assert (token_remove [dropValid styles; dropInvalid styles]
            (token_add (if accepted dt then dropValid styles else dropInvalid styles)
               (classList w)) = classList w) as Hback.
  { apply token_remove_added.
    - destruct (accepted dt); [left|right; left].
    - intros c Hc [->|[->|[]%elem_of_nil]%elem_of_cons]%elem_of_cons; contradiction. }
  unfold run. cbn [foldl].
  rewrite (step_classList _ _ DragLeave), (step_classList _ _ (Drop dt')),
    (step_classList _ _ (DragOver dt)).
  by split.
Qed.

(** *** From a drop or a pick to the flame graph *)

(** An accepted drop on an idle page, once its call of [process]
    settles with a render that resolves: the location bar shows a URL
    that was not live before and now stands for [flamegraph.svg] with
    the payload rendered from the bytes of the first dropped file; the
    decoration is Neutral, no call is left pending and nothing is
    reported. *)
Theorem drop_then_render_resolved (dt : DataTransfer) (it : DataTransferItem)
    (svg : list byte) (w : World)
    (Hvalid : single_wasm_file dt it)
    (Hidle : pending w = [])
    (Hsvg : renderFlameGraph (body (head (files dt))) = Normal svg) :
  let w' := run' [Drop dt; Settle] w in
  let id := fresh (dom (blobs w)) in
  href w' = BlobURL id
  ∧ blobs w !! id = None
  ∧ blobs w' = <[id := mkFile "flamegraph.svg" "image/svg+xml" svg]> (blobs w)
  ∧ DropState_of styles w' = Some Neutral
  ∧ pending w' = []
  ∧ uncaught w' = uncaught w.
Proof.
  assert (accepted dt = true) as Hacc by (apply accepted_iff; eauto).
  cbn zeta. rewrite !run_cons. rewrite (step_Drop_accepted _ _ Hacc), Hidle.
  erewrite step_Settle_resolved; [|reflexivity|exact Hsvg].
  unfold DropState_of, run.
  cbn [foldl classList pending blobs href uncaught].
  rewrite decoration_reset. split; [done|]. split; [apply fresh_url_not_live|done].
Qed.

(** The same drop when the render is rejected: the user stays on the
    page, which shows no marker at all, the invalid one included; no
    URL is created; the rejection is reported as unhandled and nothing
    is left pending. *)
Theorem drop_then_render_rejected (dt : DataTransfer) (it : DataTransferItem)
    (e : exn) (w : World)
    (Hvalid : single_wasm_file dt it)
    (Hidle : pending w = [])
    (Hfail : renderFlameGraph (body (head (files dt))) = Throw e) :
  let w' := run' [Drop dt; Settle] w in
  href w' = href w
  ∧ blobs w' = blobs w
  ∧ (dropInvalid styles ∉ classList w')
  ∧ (dropValid styles ∉ classList w')
  ∧ pending w' = []
  ∧ uncaught w' = uncaught w ++ [e].
Proof.
  assert (accepted dt = true) as Hacc by (apply accepted_iff; eauto).
  cbn zeta. rewrite !run_cons. rewrite (step_Drop_accepted _ _ Hacc), Hidle.
  erewrite step_Settle_rejected; [|reflexivity|exact Hfail].
  unfold run. cbn [foldl classList pending blobs href uncaught].
  pose proof (decoration_reset styles (classList w)) as Hreset.
  apply decoration_Some in Hreset as [Hv Hi]. done.
Qed.


(** *** Invariants of the event loop *)

Lemma step_shows_live_svg (i : Input) (w : World) :
  shows_live_svg w → shows_live_svg (step' i w).
Proof.
  intros Hinv. destruct i as [dt| |dt|fs|].
  - by rewrite step_DragOver.
  - by rewrite step_DragLeave.
  - rewrite step_Drop. by destruct (accepted dt).
  - by rewrite step_Change.
  - destruct (step_Settle_cases w)
      as [[_ ->]|[(file & rest & e & _ & _ & ->)|(file & rest & svg & _ & _ & ->)]];
      [done|done|].
    intros id. cbn [href blobs]. intros [= <-].
    exists (svgFile_of svg). by rewrite lookup_insert_eq.
Qed.

(** Wherever the script sends the page, it is to a live object URL that
    stands for a file [flamegraph.svg] of type [image/svg+xml]: if this
    holds of the location bar to begin with (as on the page itself), it
    holds after every sequence of inputs. *)
Theorem navigates_only_to_live_svg (inputs : list Input) (w : World)
    (Hinit : shows_live_svg w) :
  shows_live_svg (run' inputs w).
Proof.
  revert w Hinit. induction inputs as [|i rest IH]; intros w Hinit; [done|].
  rewrite run_cons. by apply IH, step_shows_live_svg.
Qed.

Lemma step_blobs_origin (i : Input) (w : World) (id : nat) (f : File) :
  blobs (step' i w) !! id = Some f →
  blobs w !! id = Some f ∨ (blobs w !! id = None ∧ rendered_svg renderFlameGraph f).
Proof.
  destruct i as [dt| |dt|fs|].
  - rewrite step_DragOver. by left.
  - rewrite step_DragLeave. by left.
  - rewrite step_Drop. destruct (accepted dt); by left.
  - rewrite step_Change. by left.
  - destruct (step_Settle_cases w)
      as [[_ ->]|[(file & rest & e & _ & _ & ->)|(file & rest & svg & _ & Hsvg & ->)]];
      [by left|by left|].
    cbn [blobs]. destruct (decide (fresh (dom (blobs w)) = id)) as [<-|Hne].
    + rewrite lookup_insert_eq. intros [= <-]. right.
      split; [apply fresh_url_not_live|]. by exists (body file), svg.
    + rewrite lookup_insert_ne by done. by left.
Qed.

(** Every object URL that is live after a sequence of inputs either was
    live before, for the same file, or stands for the wrapped payload of
    a render that resolved: the script stores nothing else, and it never
    changes what a live URL stands for. *)
Theorem live_urls_hold_rendered_svgs (inputs : list Input) (w : World)
    (id : nat) (f : File) :
  blobs (run' inputs w) !! id = Some f →
  blobs w !! id = Some f ∨ (blobs w !! id = None ∧ rendered_svg renderFlameGraph f).
Proof.
  revert w. induction inputs as [|i rest IH]; intros w; [by left|].
  rewrite run_cons. intros [Hstep|[Hnone Hnew]]%IH.
  - by apply step_blobs_origin in Hstep.
  - right. split; [|done].
    destruct (blobs w !! id) as [g|] eqn:Hg; [|done].
    pose proof (step_blobs styles renderFlameGraph i w) as Hsub.
    rewrite map_subseteq_spec in Hsub. apply Hsub in Hg. congruence.
Qed.

Lemma step_uncaught (i : Input) (w : World) :
  ∃ es, uncaught (step' i w) = uncaught w ++ es
        ∧ Forall (λ e, ∃ buf, renderFlameGraph buf = Throw e) es.
Proof.
  destruct i as [dt| |dt|fs|].
  - exists []. rewrite step_DragOver, app_nil_r. done.
  - exists []. rewrite step_DragLeave, app_nil_r. done.
  - exists []. rewrite step_Drop, app_nil_r. by destruct (accepted dt).
  - exists []. rewrite step_Change, app_nil_r. done.
  - destruct (step_Settle_cases w)
      as [[_ ->]|[(file & rest & e & _ & Hfail & ->)|(file & rest & svg & _ & _ & ->)]].
    + exists []. by rewrite app_nil_r.
    + exists [e]. split; [done|]. repeat constructor. by exists (body file).
    + exists []. by rewrite app_nil_r.
Qed.

(** The script itself never fails: every error reported along a
    sequence of inputs is a rejection of the renderer.  With a renderer
    that resolves on every buffer nothing is ever reported. *)
Theorem only_renderer_rejections_reported (inputs : list Input) (w : World) :
  (∃ es, uncaught (run' inputs w) = uncaught w ++ es
         ∧ Forall (λ e, ∃ buf, renderFlameGraph buf = Throw e) es)
  ∧ ((∀ buf, ∃ svg, renderFlameGraph buf = Normal svg) →
     uncaught (run' inputs w) = uncaught w).
Proof.
  assert (∃ es, uncaught (run' inputs w) = uncaught w ++ es
          ∧ Forall (λ e, ∃ buf, renderFlameGraph buf = Throw e) es) as Hes.
  { revert w. induction inputs as [|i rest IH]; intros w.
    - exists []. by rewrite app_nil_r.
    - rewrite run_cons.
      destruct (step_uncaught i w) as (es1 & Hstep & Hes1).
      destruct (IH (step' i w)) as (es2 & Hrest & Hes2).
      exists (es1 ++ es2). rewrite Hrest, Hstep, app_assoc. split; [done|].
      by apply Forall_app. }
  split; [exact Hes|]. intros Htotal.
  destruct Hes as ([|e es] & -> & Hes); [by rewrite app_nil_r|].
  apply Forall_cons in Hes as [[buf Hbuf] _].
  destruct (Htotal buf) as [svg Hsvg]. congruence.
Qed.

Lemma step_event_pending (i : Input) (w : World) :
  is_event i = true →
  pending (step' i w) = pending w ++ calls_made i
  ∧ blobs (step' i w) = blobs w
  ∧ href (step' i w) = href w
  ∧ uncaught (step' i w) = uncaught w.
Proof.
  intros Hevent. destruct i as [dt| |dt|fs|]; [| | | |discriminate]; cbn [calls_made].
  - rewrite step_DragOver. by rewrite app_nil_r.
  - rewrite step_DragLeave. by rewrite app_nil_r.
  - rewrite step_Drop, head_lookup.
    destruct (accepted dt); [done|]. by rewrite app_nil_r.
  - by rewrite step_Change.
Qed.

(** Calls of [process] are neither dropped nor merged by the handlers:
    along every sequence of events with no call settling in between,
    the calls made are queued in order, one per accepted drop and one
    per change event of the picker, each with the first file of its own
    list; drag-overs, drag-leaves and refused drops add none.  The
    handlers themselves create no URL, do not navigate and report
    nothing. *)
Theorem handlers_queue_every_call (inputs : list Input) (w : World)
    (Hevents : forallb is_event inputs = true) :
  pending (run' inputs w) = pending w ++ flat_map calls_made inputs
  ∧ blobs (run' inputs w) = blobs w
  ∧ href (run' inputs w) = href w
  ∧ uncaught (run' inputs w) = uncaught w.
Proof.
  revert w Hevents. induction inputs as [|i rest IH]; intros w Hevents.
  - cbn [flat_map]. by rewrite app_nil_r.
  - cbn [forallb] in Hevents. apply andb_true_iff in Hevents as [Hi Hrest].
    destruct (step_event_pending i w Hi) as (Hp & Hb & Hh & Hu).
    destruct (IH (step' i w) Hrest) as (Hp' & Hb' & Hh' & Hu').
    rewrite run_cons. cbn [flat_map].
    rewrite Hp', Hb', Hh', Hu', Hp, Hb, Hh, Hu. by rewrite app_assoc.
Qed.

End WholePage.

(** ** The properties of the whole page at sample inputs *)

Lemma other_classes_untouched_witness :
  "drop-signal" ≠ dropValid css
  ∧ "drop-signal" ≠ dropInvalid css
  ∧ "drop-signal" ∈ classList (run css renderAll sampleDrag freshPage).
Proof.
  assert ("drop-signal" ≠ dropValid css) as Hvalid by discriminate.
  assert ("drop-signal" ≠ dropInvalid css) as Hinvalid by discriminate.
  split; [exact Hvalid|]. split; [exact Hinvalid|].
  apply (other_classes_untouched css renderAll sampleDrag freshPage "drop-signal"
           Hvalid Hinvalid).
  apply list_elem_of_here.
Defined.

Lemma dragover_after_dragleave_shows_verdict_witness :
  dropValid css ≠ dropInvalid css
  ∧ (DropState_of css (run css renderAll [DragLeave; DragOver oneWasm] freshPage) = Some Valid
     ↔ ∃ it, single_wasm_file oneWasm it).
Proof.
  assert (dropValid css ≠ dropInvalid css) as Hne by discriminate.
  split; [exact Hne|].
  apply (dragover_after_dragleave_shows_verdict css renderAll Hne oneWasm freshPage).
Defined.

Lemma drop_then_render_resolved_witness :
  single_wasm_file oneWasm wasmItem
  ∧ pending freshPage = []
  ∧ renderStrict (body (head (files oneWasm)))
    = Normal ["<"%byte; "s"%byte; "v"%byte; "g"%byte; ">"%byte]
  ∧ href (run css renderStrict [Drop oneWasm; Settle] freshPage)
    = BlobURL (fresh (dom (blobs freshPage))).
Proof.
  assert (single_wasm_file oneWasm wasmItem) as Hvalid.
  { split; [reflexivity|]. split; reflexivity. }
  split; [exact Hvalid|]. split; [reflexivity|]. split; [reflexivity|].
  apply (drop_then_render_resolved css renderStrict oneWasm wasmItem
           ["<"%byte; "s"%byte; "v"%byte; "g"%byte; ">"%byte] freshPage Hvalid);
    reflexivity.
Defined.

Lemma drop_then_render_rejected_witness :
  single_wasm_file mislabelled wasmItem
  ∧ pending freshPage = []
  ∧ renderStrict (body (head (files mislabelled))) = Throw (Rejection "not a wasm module")
  ∧ uncaught (run css renderStrict [Drop mislabelled; Settle] freshPage)
    = uncaught freshPage ++ [Rejection "not a wasm module"].
Proof.
  assert (single_wasm_file mislabelled wasmItem) as Hvalid.
  { split; [reflexivity|]. split; reflexivity. }
  split; [exact Hvalid|]. split; [reflexivity|]. split; [reflexivity|].
  apply (drop_then_render_rejected css renderStrict mislabelled wasmItem
           (Rejection "not a wasm module") freshPage Hvalid);
    reflexivity.
Defined.


Lemma navigates_only_to_live_svg_witness :
  shows_live_svg freshPage
  ∧ shows_live_svg
      (run css renderStrict [Drop oneWasm; Settle; Change [notesFile]; Settle] freshPage).
Proof.
  assert (shows_live_svg freshPage) as Hinit.
  { intros id Hid. discriminate Hid. }
  split; [exact Hinit|].
  apply (navigates_only_to_live_svg css renderStrict
           [Drop oneWasm; Settle; Change [notesFile]; Settle] freshPage Hinit).
Defined.

Lemma live_urls_hold_rendered_svgs_witness :
  blobs (run css renderStrict [Drop oneWasm; Settle] freshPage) !! 0
    = Some (svgFile_of ["<"%byte; "s"%byte; "v"%byte; "g"%byte; ">"%byte])
  ∧ (blobs freshPage !! 0 = Some (svgFile_of ["<"%byte; "s"%byte; "v"%byte; "g"%byte; ">"%byte])
     ∨ (blobs freshPage !! 0 = None
        ∧ rendered_svg renderStrict
            (svgFile_of ["<"%byte; "s"%byte; "v"%byte; "g"%byte; ">"%byte]))).
Proof.
  assert (blobs (run css renderStrict [Drop oneWasm; Settle] freshPage) !! 0
          = Some (svgFile_of ["<"%byte; "s"%byte; "v"%byte; "g"%byte; ">"%byte])) as Hlive
    by reflexivity.
  split; [exact Hlive|].
  apply (live_urls_hold_rendered_svgs css renderStrict [Drop oneWasm; Settle] freshPage
           0 _ Hlive).
Defined.

Lemma dragover_then_reset_restores_classList_witness :
  DropState_of css freshPage = Some Neutral
  ∧ classList (run css renderAll [DragOver oneText; DragLeave] freshPage)
    = classList freshPage.
Proof.
  assert (DropState_of css freshPage = Some Neutral) as Hneutral by reflexivity.
  split; [exact Hneutral|].
  apply (dragover_then_reset_restores_classList css renderAll oneText oneWasm freshPage
           Hneutral).
Defined.

Lemma handlers_queue_every_call_witness :
  forallb is_event [DragOver oneWasm; Drop oneWasm; Change [notesFile]; Drop twoWasm] = true
  ∧ pending (run css renderStrict
               [DragOver oneWasm; Drop oneWasm; Change [notesFile]; Drop twoWasm] freshPage)
    = [Some wasmFile; Some notesFile].
Proof.
  split; [reflexivity|].
  apply (handlers_queue_every_call css renderStrict
           [DragOver oneWasm; Drop oneWasm; Change [notesFile]; Drop twoWasm] freshPage).
  reflexivity.
Defined.
